(** * Celestia game server: the per-room simulation engine of [server.js]

    A shallow embedding of class [GameRoom] and of the socket handlers that
    drive it, followed by the properties of the engine that are proved about
    it.

    - JavaScript numbers that carry coordinates, angles, speeds and lifetimes
      are IEEE 754 binary64 values: Rocq's primitive [float].
    - Counters that only ever hold small integers ([hp], [kills], [timeLeft],
      [seq]) are [Z]; binary64 arithmetic is exact on them.
    - A JavaScript [Map] is an association list in insertion order.
    - [Math.random], [Date.now] and the engine's numeric and string library
      are a [Host] record; every method runs in a state monad over the
      [World] (room registry, oracle cursors, emitted packets). *)

From Stdlib Require Import Floats ZArith List Bool String Ascii Lia.
From Stdlib Require Import Permutation Sorted DecimalString.
Import ListNotations.

Set Implicit Arguments.
Set Warnings "-inexact-float".

(** ** JavaScript numbers *)

Module Num.
Local Open Scope float_scope.

(** [u > v] and [u >= v]; IEEE comparisons, false on NaN. *)
Definition gtb (u v : float) : bool := v <? u.
Definition geb (u v : float) : bool := v <=? u.

Definition is_negzero (u : float) : bool :=
  match classify u with NZero => true | _ => false end.

(** ToBoolean on a number: [0], [-0] and [NaN] are falsy. *)
Definition truthy (u : float) : bool := negb (is_nan u || (u =? 0)).

(** [u || 0] *)
Definition or_zero (u : float) : float := if truthy u then u else 0.

(** [Math.min(u, v)] and [Math.max(u, v)]: NaN if either argument is NaN,
    and [-0] is below [+0]. *)
Definition Math_min (u v : float) : float :=
  if is_nan u || is_nan v then nan
  else if u <? v then u
  else if v <? u then v
  else if is_negzero u then u else v.

Definition Math_max (u v : float) : float :=
  if is_nan u || is_nan v then nan
  else if u <? v then v
  else if v <? u then u
  else if is_negzero u then v else u.

Definition Math_PI : float := 0x1.921fb54442d18p+1.
End Num.

(** ** The host environment

    What the JavaScript engine supplies and the program only calls.
    [Math_random k] is the value returned by the [k]-th call of
    [Math.random()], [Date_now k] the value of the [k]-th call of
    [Date.now()]. [toFixed2 v] is [+v.toFixed(2)], [toString36 v] is
    [v.toString(36)]. *)

Record Host : Type := {
  Math_random : nat -> float;
  Date_now : nat -> Z;
  Math_cos : float -> float;
  Math_sin : float -> float;
  Math_hypot : float -> float -> float;
  Math_pow : float -> float -> float;
  toFixed2 : float -> float;
  toString36 : float -> string;
  trim : string -> string;
  toLowerCase : string -> string
}.

(** ** JavaScript [Map]: keys in insertion order *)

Module JsMap.
Section Ops.
Variable V : Type.

Definition t := list (string * V).

Fixpoint get (k : string) (m : t) : option V :=
  match m with
  | [] => None
  | (k', v) :: m' => if String.eqb k k' then Some v else get k m'
  end.

Definition has (k : string) (m : t) : bool :=
  match get k m with Some _ => true | None => false end.

(** [m.set(k, v)]: an existing key keeps its place. *)
Fixpoint set (k : string) (v : V) (m : t) : t :=
  match m with
  | [] => [(k, v)]
  | (k', v') :: m' =>
      if String.eqb k k' then (k, v) :: m' else (k', v') :: set k v m'
  end.

Fixpoint delete (k : string) (m : t) : t :=
  match m with
  | [] => []
  | (k', v') :: m' =>
      if String.eqb k k' then m' else (k', v') :: delete k m'
  end.

(** In-place mutation of the object stored under [k]. *)
Fixpoint adjust (f : V -> V) (k : string) (m : t) : t :=
  match m with
  | [] => []
  | (k', v') :: m' =>
      if String.eqb k k' then (k', f v') :: m' else (k', v') :: adjust f k m'
  end.

Definition size (m : t) : nat := List.length m.
Definition keys (m : t) : list string := List.map fst m.
Definition values (m : t) : list V := List.map snd m.
Definition clear (_ : t) : t := [].
End Ops.
End JsMap.

(** ** Game constants *)

Definition GAME_TICK_RATE : float := 45.
Definition GAME_DT : float := 1 / GAME_TICK_RATE.
Definition MAP_WIDTH : float := 1250.
Definition MAP_HEIGHT : float := 650.

(** ** Data *)

Record Wall := { w_x : float; w_y : float; w_w : float; w_h : float }.
Record Pillar := { c_x : float; c_y : float; c_r : float }.

Record Arena := {
  walls : list Wall;
  pillars : list Pillar;
  width : float;
  height : float
}.

(** A client input. [turn] and [thrust] are read through [|| 0], [fire]
    through ToBoolean. *)
Record Input := {
  i_turn : float;
  i_thrust : float;
  i_fire : bool;
  i_seq : Z
}.

Record Player := {
  p_id : string;
  p_name : string;
  p_x : float;
  p_y : float;
  p_a : float;
  p_vx : float;
  p_vy : float;
  p_hp : Z;
  p_kills : Z;
  p_inputs : list Input;
  p_lastInputSeq : Z;
  p_ready : bool
}.

Record Bullet := {
  b_id : string;
  b_x : float;
  b_y : float;
  b_vx : float;
  b_vy : float;
  b_owner : string;
  b_life : float
}.

(** [timerInterval] and [interval] record whether the countdown timer and
    the simulation timer are armed. *)
Record GameRoom := {
  name : string;
  players : JsMap.t Player;
  bullets : JsMap.t Bullet;
  seq : Z;
  map : Arena;
  matchDuration : Z;
  timeLeft : Z;
  matchRunning : bool;
  timerInterval : bool;
  interval : bool
}.

(** ** Outbound events *)

Record PlayerView := {
  v_id : string;
  v_name : string;
  v_x : float;
  v_y : float;
  v_a : float;
  v_hp : Z;
  v_kills : Z;
  v_ready : bool
}.

Record BulletView := {
  bv_id : string;
  bv_x : float;
  bv_y : float;
  bv_vx : float;
  bv_vy : float
}.

(** An entry of the rankings; the synthetic draw record has no id. *)
Record Rank := {
  r_id : option string;
  r_name : string;
  r_kills : Z
}.

Inductive HitType := hit | killed.

Record GameEvent := {
  e_type : HitType;
  e_target : option string;
  e_by : string;
  e_obstacle : bool;
  e_x : float;
  e_y : float
}.

Inductive Event :=
| players_list (l : list PlayerView)
| player_left (id : string)
| player_ready_update (id : string) (ready : bool)
| match_started (duration : Z)
| timer_update (t : Z)
| match_ended (rankings : list Rank) (winner : option Rank)
| game_state (t : Z) (sq : Z) (ps : list PlayerView) (bs : list BulletView)
             (obstacles : Arena) (left : Z)
| game_event (e : GameEvent)
| game_joined.

(** [io.to(target).emit(event)]: the target is a room name or a socket id. *)
Record Packet := { target : string; event : Event }.

(** ** The world and the monad of effects *)

Record World := {
  gameRooms : JsMap.t GameRoom;
  rnd : nat;
  clk : nat;
  out : list Packet
}.

Definition M (A : Type) : Type := World -> A * World.

Definition ret {A} (a : A) : M A := fun w => (a, w).

Definition bind {A B} (c : M A) (k : A -> M B) : M B :=
  fun w => let (a, w') := c w in k a w'.

Declare Scope eff_scope.
Delimit Scope eff_scope with eff.
Notation "x <- c ;; k" := (bind c (fun x => k))
  (at level 61, c at next level, right associativity) : eff_scope.
Notation "' pat <- c ;; k" := (bind c (fun x => match x with pat => k end))
  (at level 61, pat pattern, c at next level, right associativity) : eff_scope.
Notation "c ;;; k" := (bind c (fun _ => k))
  (at level 61, right associativity) : eff_scope.

Definition emit (to : string) (e : Event) : M unit :=
  fun w => (tt, {| gameRooms := gameRooms w; rnd := rnd w; clk := clk w;
                   out := out w ++ [{| target := to; event := e |}] |}).

Definition unregister (key : string) : M unit :=
  fun w => (tt, {| gameRooms := JsMap.delete key (gameRooms w); rnd := rnd w;
                   clk := clk w; out := out w |}).

(** Monadic loops over a list, in order. *)
Fixpoint mapM {A B} (f : A -> M B) (l : list A) : M (list B) :=
  match l with
  | [] => ret []
  | a :: l' => (b <- f a ;; bs <- mapM f l' ;; ret (b :: bs))%eff
  end.

Fixpoint foldM {A S} (f : S -> A -> M S) (l : list A) (s : S) : M S :=
  match l with
  | [] => ret s
  | a :: l' => (s' <- f s a ;; foldM f l' s')%eff
  end.

(** Field updates of a room and of a player. *)
Definition with_players (ps : JsMap.t Player) (g : GameRoom) : GameRoom :=
  {| name := name g; players := ps; bullets := bullets g; seq := seq g;
     map := map g; matchDuration := matchDuration g; timeLeft := timeLeft g;
     matchRunning := matchRunning g; timerInterval := timerInterval g;
     interval := interval g |}.

Definition with_bullets (bs : JsMap.t Bullet) (g : GameRoom) : GameRoom :=
  {| name := name g; players := players g; bullets := bs; seq := seq g;
     map := map g; matchDuration := matchDuration g; timeLeft := timeLeft g;
     matchRunning := matchRunning g; timerInterval := timerInterval g;
     interval := interval g |}.

Definition with_seq (n : Z) (g : GameRoom) : GameRoom :=
  {| name := name g; players := players g; bullets := bullets g; seq := n;
     map := map g; matchDuration := matchDuration g; timeLeft := timeLeft g;
     matchRunning := matchRunning g; timerInterval := timerInterval g;
     interval := interval g |}.

Definition with_timeLeft (n : Z) (g : GameRoom) : GameRoom :=
  {| name := name g; players := players g; bullets := bullets g; seq := seq g;
     map := map g; matchDuration := matchDuration g; timeLeft := n;
     matchRunning := matchRunning g; timerInterval := timerInterval g;
     interval := interval g |}.

Definition with_matchRunning (b : bool) (g : GameRoom) : GameRoom :=
  {| name := name g; players := players g; bullets := bullets g; seq := seq g;
     map := map g; matchDuration := matchDuration g; timeLeft := timeLeft g;
     matchRunning := b; timerInterval := timerInterval g;
     interval := interval g |}.

Definition with_timerInterval (b : bool) (g : GameRoom) : GameRoom :=
  {| name := name g; players := players g; bullets := bullets g; seq := seq g;
     map := map g; matchDuration := matchDuration g; timeLeft := timeLeft g;
     matchRunning := matchRunning g; timerInterval := b;
     interval := interval g |}.

Definition with_interval (b : bool) (g : GameRoom) : GameRoom :=
  {| name := name g; players := players g; bullets := bullets g; seq := seq g;
     map := map g; matchDuration := matchDuration g; timeLeft := timeLeft g;
     matchRunning := matchRunning g; timerInterval := timerInterval g;
     interval := b |}.

Definition with_ready (b : bool) (p : Player) : Player :=
  {| p_id := p_id p; p_name := p_name p; p_x := p_x p; p_y := p_y p;
     p_a := p_a p; p_vx := p_vx p; p_vy := p_vy p; p_hp := p_hp p;
     p_kills := p_kills p; p_inputs := p_inputs p;
     p_lastInputSeq := p_lastInputSeq p; p_ready := b |}.

Definition with_inputs (l : list Input) (p : Player) : Player :=
  {| p_id := p_id p; p_name := p_name p; p_x := p_x p; p_y := p_y p;
     p_a := p_a p; p_vx := p_vx p; p_vy := p_vy p; p_hp := p_hp p;
     p_kills := p_kills p; p_inputs := l;
     p_lastInputSeq := p_lastInputSeq p; p_ready := p_ready p |}.

Definition with_kills (k : Z) (p : Player) : Player :=
  {| p_id := p_id p; p_name := p_name p; p_x := p_x p; p_y := p_y p;
     p_a := p_a p; p_vx := p_vx p; p_vy := p_vy p; p_hp := p_hp p;
     p_kills := k; p_inputs := p_inputs p;
     p_lastInputSeq := p_lastInputSeq p; p_ready := p_ready p |}.

Definition with_hp (n : Z) (p : Player) : Player :=
  {| p_id := p_id p; p_name := p_name p; p_x := p_x p; p_y := p_y p;
     p_a := p_a p; p_vx := p_vx p; p_vy := p_vy p; p_hp := n;
     p_kills := p_kills p; p_inputs := p_inputs p;
     p_lastInputSeq := p_lastInputSeq p; p_ready := p_ready p |}.

Definition with_pos (x y : float) (p : Player) : Player :=
  {| p_id := p_id p; p_name := p_name p; p_x := x; p_y := y;
     p_a := p_a p; p_vx := p_vx p; p_vy := p_vy p; p_hp := p_hp p;
     p_kills := p_kills p; p_inputs := p_inputs p;
     p_lastInputSeq := p_lastInputSeq p; p_ready := p_ready p |}.

Definition with_vel (vx vy : float) (p : Player) : Player :=
  {| p_id := p_id p; p_name := p_name p; p_x := p_x p; p_y := p_y p;
     p_a := p_a p; p_vx := vx; p_vy := vy; p_hp := p_hp p;
     p_kills := p_kills p; p_inputs := p_inputs p;
     p_lastInputSeq := p_lastInputSeq p; p_ready := p_ready p |}.

(** ** Class [GameRoom] *)

Section Engine.
Variable h : Host.

Local Open Scope float_scope.
Local Open Scope eff_scope.

(** [Math.random()] and [Date.now()] read the oracles and advance their
    cursors. *)
Definition random : M float :=
  fun w => (Math_random h (rnd w),
            {| gameRooms := gameRooms w; rnd := S (rnd w); clk := clk w;
               out := out w |}).

Definition now : M Z :=
  fun w => (Date_now h (clk w),
            {| gameRooms := gameRooms w; rnd := rnd w; clk := S (clk w);
               out := out w |}).

(** *** Map generation *)

Definition MAX_TRIES : nat := 100.
Definition WALL_COUNT : nat := 8.

Definition isOverlapping (a b : Wall) : bool :=
  (w_x a <? w_x b + w_w b) &&
  Num.gtb (w_x a + w_w a) (w_x b) &&
  (w_y a <? w_y b + w_h b) &&
  Num.gtb (w_y a + w_h a) (w_y b).

(** One candidate wall: orientation, width, height, then position. *)
Definition candidate : M Wall :=
  r <- random ;;
  let isHorizontal := Num.gtb r 0.5 in
  rw <- random ;;
  let w := if isHorizontal then 150 + rw * 150 else 50 + rw * 40 in
  rh <- random ;;
  let h' := if isHorizontal then 50 + rh * 40 else 100 + rh * 100 in
  rx <- random ;;
  let x := rx * (MAP_WIDTH - w - 20) in
  ry <- random ;;
  let y := ry * (MAP_HEIGHT - h' - 20) in
  ret {| w_x := x; w_y := y; w_w := w; w_h := h' |}.

(** The [while (walls.length < WALL_COUNT && tries < MAX_TRIES)] loop.
    [budget] is [MAX_TRIES - tries]; the loop returns the walls and the
    number of tries made. *)
Fixpoint wallLoop (budget tries : nat) (ws : list Wall) : M (list Wall * nat) :=
  match budget with
  | O => ret (ws, tries)
  | S budget' =>
      if (List.length ws <? WALL_COUNT)%nat then
        newWall <- candidate ;;
        let overlaps := existsb (fun wall => isOverlapping wall newWall) ws in
        wallLoop budget' (S tries) (if overlaps then ws else ws ++ [newWall])
      else ret (ws, tries)
  end.

Definition pillar : M Pillar :=
  rx <- random ;;
  ry <- random ;;
  rr <- random ;;
  ret {| c_x := rx * MAP_WIDTH; c_y := ry * MAP_HEIGHT; c_r := 40 + rr * 30 |}.

Definition generateMap : M Arena :=
  '(ws, _) <- wallLoop MAX_TRIES 0 [] ;;
  ps <- mapM (fun _ : nat => pillar) (List.seq 0 6) ;;
  ret {| walls := ws; pillars := ps; width := MAP_WIDTH; height := MAP_HEIGHT |}.

(** *** Collision helper *)

Definition hitsWall (x y radius : float) (w : Wall) : bool :=
  Num.gtb (x + radius) (w_x w) &&
  (x - radius <? w_x w + w_w w) &&
  Num.gtb (y + radius) (w_y w) &&
  (y - radius <? w_y w + w_h w).

Definition hitsPillar (x y radius : float) (p : Pillar) : bool :=
  let dx := x - c_x p in
  let dy := y - c_y p in
  dx * dx + dy * dy <? Math_pow h (radius + c_r p) 2.

Definition collidesWithObstacles (m : Arena) (x y radius : float) : bool :=
  if existsb (hitsWall x y radius) (walls m) then true
  else existsb (hitsPillar x y radius) (pillars m).

(** *** Safe random spawn

    The [do ... while] loop. [budget] is the number of further samples
    allowed after this one: the loop breaks when [tries > 1000]. *)
Fixpoint spawnLoop (m : Arena) (budget : nat) : M (float * float) :=
  rx <- random ;;
  let x := rx * MAP_WIDTH in
  ry <- random ;;
  let y := ry * MAP_HEIGHT in
  match budget with
  | O => ret (x, y)
  | S budget' =>
      if collidesWithObstacles m x y 20 then spawnLoop m budget'
      else ret (x, y)
  end.

Definition getSafeSpawn (m : Arena) : M (float * float) := spawnLoop m 1000.

(** *** Broadcasts *)

Definition broadcast (g : GameRoom) (e : Event) : M unit := emit (name g) e.

Definition view (p : Player) : PlayerView :=
  {| v_id := p_id p; v_name := p_name p;
     v_x := toFixed2 h (p_x p); v_y := toFixed2 h (p_y p);
     v_a := toFixed2 h (p_a p);
     v_hp := p_hp p; v_kills := p_kills p; v_ready := p_ready p |}.

Definition broadcastPlayerList (g : GameRoom) : M unit :=
  broadcast g (players_list (List.map view (JsMap.values (players g)))).

(** *** Constructor *)

Definition newGameRoom (nm : string) : M GameRoom :=
  m <- generateMap ;;
  ret {| name := nm; players := []; bullets := []; seq := 0; map := m;
         matchDuration := 65; timeLeft := 65; matchRunning := false;
         timerInterval := false; interval := true |}.

(** *** Match control *)

Definition stopTimer (g : GameRoom) : GameRoom :=
  if timerInterval g then with_timerInterval false g else g.

Definition resetPlayer (m : Arena) (e : string * Player) : M (string * Player) :=
  let (k, p) := e in
  '(x, y) <- getSafeSpawn m ;;
  ret (k, {| p_id := p_id p; p_name := p_name p; p_x := x; p_y := y;
             p_a := p_a p; p_vx := 0; p_vy := 0; p_hp := 100; p_kills := 0;
             p_inputs := []; p_lastInputSeq := 0; p_ready := false |}).

Definition startMatch (g : GameRoom) : M GameRoom :=
  if matchRunning g then ret g
  else
    ps <- mapM (resetPlayer (map g)) (players g) ;;
    let g1 := with_players ps g in
    let g2 := with_bullets (JsMap.clear (bullets g1)) g1 in
    let g3 := with_timeLeft (matchDuration g2) g2 in
    let g4 := with_matchRunning true g3 in
    let g5 := with_timerInterval true (stopTimer g4) in
    emit (name g5) (match_started (matchDuration g5)) ;;;
    broadcastPlayerList g5 ;;;
    ret g5.

Definition rank (p : Player) : Rank :=
  {| r_id := Some (p_id p); r_name := p_name p; r_kills := p_kills p |}.

(** [Array.prototype.sort] with the comparator [(a, b) => b.kills - a.kills]:
    the sort is stable, so the result is that of a stable insertion
    ([r] stays ahead of the entries it does not compare after). *)
Fixpoint insertRank (r : Rank) (l : list Rank) : list Rank :=
  match l with
  | [] => [r]
  | r' :: l' =>
      if (r_kills r' - r_kills r <=? 0)%Z then r :: l
      else r' :: insertRank r l'
  end.

Definition sortRanks (l : list Rank) : list Rank :=
  fold_right insertRank [] l.

Definition winnerOf (rankings : list Rank) : option Rank :=
  match rankings with
  | [] => None
  | top :: _ =>
      let topKills := r_kills top in
      let allZero := forallb (fun r => (r_kills r =? 0)%Z) rankings in
      if allZero then None
      else
        let topCount :=
          List.length (filter (fun r => (r_kills r =? topKills)%Z) rankings) in
        if (1 <? topCount)%nat
        then Some {| r_id := None; r_name := "Draw"; r_kills := topKills |}
        else Some top
  end.

Definition endMatch (g : GameRoom) : M GameRoom :=
  if negb (matchRunning g) then ret g
  else
    let g1 := stopTimer (with_matchRunning false g) in
    let rankings := sortRanks (List.map rank (JsMap.values (players g1))) in
    let winner := winnerOf rankings in
    let g2 :=
      with_players
        (List.map (fun e : string * Player => (fst e, with_ready false (snd e)))
                  (players g1)) g1 in
    emit (name g2) (match_ended rankings winner) ;;;
    broadcastPlayerList g2 ;;;
    ret g2.

Definition updateTimer (g : GameRoom) : M GameRoom :=
  if negb (matchRunning g) then ret g
  else
    let g1 := with_timeLeft (timeLeft g - 1)%Z g in
    emit (name g1) (timer_update (timeLeft g1)) ;;;
    if (timeLeft g1 <=? 0)%Z then endMatch g1 else ret g1.

Definition restartMatch (g : GameRoom) : M GameRoom :=
  if negb (matchRunning g) then startMatch g else ret g.

(** *** Players *)

Definition addPlayer (g : GameRoom) (socketId : string) (nm : option string)
  : M GameRoom :=
  '(x, y) <- getSafeSpawn (map g) ;;
  let prev := JsMap.get socketId (players g) in
  let kills := match prev with Some p => p_kills p | None => 0%Z end in
  r <- random ;;
  let p :=
    {| p_id := socketId;
       p_name := match nm with Some n => n | None => "Player"%string end;
       p_x := x; p_y := y; p_a := r * Num.Math_PI * 2;
       p_vx := 0; p_vy := 0; p_hp := 100; p_kills := kills;
       p_inputs := []; p_lastInputSeq := 0; p_ready := false |} in
  let g1 := with_players (JsMap.set socketId p (players g)) g in
  broadcastPlayerList g1 ;;;
  ret g1.

Definition allReady (g : GameRoom) : bool :=
  forallb p_ready (JsMap.values (players g)).

Definition removePlayer (g : GameRoom) (socketId : string) : M GameRoom :=
  let existed := JsMap.has socketId (players g) in
  let g1 := with_players (JsMap.delete socketId (players g)) g in
  if existed then
    broadcast g1 (player_left socketId) ;;;
    broadcastPlayerList g1 ;;;
    if (JsMap.size (players g1) =? 0)%nat then
      let g2 := stopTimer (with_interval false g1) in
      unregister (name g2) ;;;
      ret g2
    else
      if allReady g1 && negb (matchRunning g1) then startMatch g1
      else ret g1
  else ret g1.

Definition receiveInput (g : GameRoom) (socketId : string) (input : Input)
  : GameRoom :=
  match JsMap.get socketId (players g) with
  | None => g
  | Some p =>
      if negb (matchRunning g) then g
      else
        with_players
          (JsMap.adjust (fun q => with_inputs (p_inputs q ++ [input]) q)
                        socketId (players g)) g
  end.

Definition decimal (z : Z) : string := NilZero.string_of_int (Z.to_int z).

Definition spawnBullet (g : GameRoom) (owner : string) (x y angle : float)
  : M GameRoom :=
  t <- now ;;
  r <- random ;;
  let id := (owner ++ "-" ++ decimal t ++ "-" ++
             substring 2 4 (toString36 h r))%string in
  let speed := 400 in
  let vx := Math_cos h angle * speed in
  let vy := Math_sin h angle * speed in
  ret (with_bullets
         (JsMap.set id {| b_id := id; b_x := x; b_y := y; b_vx := vx;
                          b_vy := vy; b_owner := owner; b_life := 2.5 |}
                    (bullets g)) g).

Definition setPlayerReady (g : GameRoom) (socketId : string) (ready : bool)
  : M GameRoom :=
  match JsMap.get socketId (players g) with
  | None => ret g
  | Some p =>
      let g1 := with_players (JsMap.adjust (with_ready ready) socketId (players g)) g in
      broadcast g1 (player_ready_update socketId ready) ;;;
      broadcastPlayerList g1 ;;;
      let total := JsMap.size (players g1) in
      if (0 <? total)%nat then
        if allReady g1 then startMatch g1 else ret g1
      else ret g1
  end.

(** *** The simulation tick *)

(** One queued input applied to the player stored under [id]. *)
Definition applyInput (id : string) (p : Player) (g : GameRoom) (input : Input)
  : M (Player * GameRoom) :=
  let dt := GAME_DT in
  let turnSpeed := 8.0 in
  let accel := 700 in
  let maxSpeed := 600 in
  let a := p_a p + Num.or_zero (i_turn input) * turnSpeed * dt in
  let thrust := Num.or_zero (i_thrust input) in
  let vx := p_vx p + Math_cos h a * thrust * accel * dt in
  let vy := p_vy p + Math_sin h a * thrust * accel * dt in
  let spd := Math_hypot h vx vy in
  let ratio := maxSpeed / spd in
  let vx' := if Num.gtb spd maxSpeed then vx * ratio else vx in
  let vy' := if Num.gtb spd maxSpeed then vy * ratio else vy in
  let p' :=
    {| p_id := p_id p; p_name := p_name p; p_x := p_x p; p_y := p_y p;
       p_a := a; p_vx := vx'; p_vy := vy'; p_hp := p_hp p;
       p_kills := p_kills p; p_inputs := p_inputs p;
       p_lastInputSeq := i_seq input; p_ready := p_ready p |} in
  if i_fire input then
    g' <- spawnBullet g id (p_x p + Math_cos h a * 20)
                           (p_y p + Math_sin h a * 20) a ;;
    ret (p', g')
  else ret (p', g).

(** [while (p.inputs.length > 0) { const input = p.inputs.shift(); ... }] *)
Fixpoint drain (id : string) (queue : list Input) (p : Player) (g : GameRoom)
  : M (Player * GameRoom) :=
  match queue with
  | [] => ret (p, g)
  | input :: rest =>
      '(p', g') <- applyInput id (with_inputs rest p) g input ;;
      drain id rest p' g'
  end.

(** The loop over [this.players.entries()] that processes inputs; the room
    is threaded for its bullet store. *)
Fixpoint inputPhase (es : list (string * Player)) (g : GameRoom)
  : M (list (string * Player) * GameRoom) :=
  match es with
  | [] => ret ([], g)
  | (id, p) :: es' =>
      '(p', g') <- drain id (p_inputs p) p g ;;
      '(ps, g'') <- inputPhase es' g' ;;
      ret ((id, p') :: ps, g'')
  end.

Definition movePlayer (m : Arena) (p : Player) : Player :=
  let dt := GAME_DT in
  let oldX := p_x p in
  let oldY := p_y p in
  let x := p_x p + p_vx p * dt in
  let y := p_y p + p_vy p * dt in
  let vx := p_vx p * 0.95 in
  let vy := p_vy p * 0.95 in
  let blocked := collidesWithObstacles m x y 20 in
  let x1 := if blocked then oldX else x in
  let y1 := if blocked then oldY else y in
  let vx1 := if blocked then 0 else vx in
  let vy1 := if blocked then 0 else vy in
  with_pos (Num.Math_max 0 (Num.Math_min MAP_WIDTH x1))
           (Num.Math_max 0 (Num.Math_min MAP_HEIGHT y1))
           (with_vel vx1 vy1 p).

Definition advance (b : Bullet) : Bullet :=
  let dt := GAME_DT in
  {| b_id := b_id b; b_x := b_x b + b_vx b * dt; b_y := b_y b + b_vy b * dt;
     b_vx := b_vx b; b_vy := b_vy b; b_owner := b_owner b;
     b_life := b_life b - dt |}.

(** The inner loop over the players: the first one struck, in store
    order, the bullet's owner skipped. *)
Fixpoint hitScan (b : Bullet) (es : list (string * Player))
  : option (string * Player) :=
  match es with
  | [] => None
  | (pid, p) :: es' =>
      if String.eqb (p_id p) (b_owner b) then hitScan b es'
      else
        let dx := b_x b - p_x p in
        let dy := b_y b - p_y p in
        if dx * dx + dy * dy <=? 20 * 20 then Some (pid, p)
        else hitScan b es'
  end.

(** What becomes of a bullet once it has been moved and aged. *)
Inductive Fate := Expired | HitObstacle | HitPlayer (pid : string) (p : Player) | Flies.

Definition fate (m : Arena) (ps : JsMap.t Player) (b : Bullet) : Fate :=
  if b_life b <=? 0 then Expired
  else if collidesWithObstacles m (b_x b) (b_y b) 2 then HitObstacle
  else match hitScan b ps with
       | Some (pid, p) => HitPlayer pid p
       | None => Flies
       end.

(** The body of the loop over [this.bullets.entries()]. *)
Definition stepBullet (g : GameRoom) (e : string * Bullet) : M GameRoom :=
  let (bid, b0) := e in
  let b := advance b0 in
  let g0 := with_bullets (JsMap.adjust (fun _ => b) bid (bullets g)) g in
  let gone := with_bullets (JsMap.delete bid (bullets g0)) g0 in
  match fate (map g0) (players g0) b with
  | Expired => ret gone
  | HitObstacle =>
      broadcast g0 (game_event {| e_type := hit; e_target := None;
                                  e_by := b_owner b; e_obstacle := true;
                                  e_x := b_x b; e_y := b_y b |}) ;;;
      ret gone
  | HitPlayer pid p =>
      let hp := (p_hp p - 20)%Z in
      let g1 := with_players (JsMap.adjust (with_hp hp) pid (players gone)) gone in
      if (hp <=? 0)%Z then
        let g2 := with_players
                    (JsMap.adjust (fun k => with_kills (p_kills k + 1)%Z k)
                                  (b_owner b) (players g1)) g1 in
        '(x, y) <- getSafeSpawn (map g2) ;;
        let g3 := with_players
                    (JsMap.adjust (fun q => with_pos x y (with_hp 100 q))
                                  pid (players g2)) g2 in
        broadcast g3 (game_event {| e_type := killed; e_target := Some pid;
                                    e_by := b_owner b; e_obstacle := false;
                                    e_x := x; e_y := y |}) ;;;
        ret g3
      else
        broadcast g1 (game_event {| e_type := hit; e_target := Some pid;
                                    e_by := b_owner b; e_obstacle := false;
                                    e_x := p_x p; e_y := p_y p |}) ;;;
        ret g1
  | Flies => ret g0
  end.

Definition bulletView (b : Bullet) : BulletView :=
  {| bv_id := b_id b; bv_x := toFixed2 h (b_x b); bv_y := toFixed2 h (b_y b);
     bv_vx := toFixed2 h (b_vx b); bv_vy := toFixed2 h (b_vy b) |}.

Definition tick (g : GameRoom) : M GameRoom :=
  if negb (matchRunning g) then ret g
  else
    let g0 := with_seq (seq g + 1)%Z g in
    '(ps, g1) <- inputPhase (players g0) g0 ;;
    let g2 := with_players ps g1 in
    let g3 := with_players
                (List.map (fun e : string * Player => (fst e, movePlayer (map g2) (snd e)))
                          (players g2)) g2 in
    g4 <- foldM stepBullet (bullets g3) g3 ;;
    t <- now ;;
    broadcast g4 (game_state t (seq g4)
                             (List.map view (JsMap.values (players g4)))
                             (List.map bulletView (JsMap.values (bullets g4)))
                             (map g4) (timeLeft g4)) ;;;
    ret g4.

(** ** Socket handlers and timers *)

Definition roomKey (room : string) : string := toLowerCase h (trim h room).

Definition register (key : string) (g : GameRoom) : M unit :=
  fun w => (tt, {| gameRooms := JsMap.set key g (gameRooms w); rnd := rnd w;
                   clk := clk w; out := out w |}).

(** A method call on the room registered under [key]; the call mutates the
    room object, which stays in the registry unless the call removed it. *)
Definition onRoom (key : string) (method : GameRoom -> M GameRoom) : M unit :=
  fun w =>
    match JsMap.get key (gameRooms w) with
    | None => (tt, w)
    | Some g =>
        let (g', w') := method g w in
        if JsMap.has key (gameRooms w') then register key g' w' else (tt, w')
    end.

Definition on_game_join (socketId room : string) (nm : option string) : M unit :=
  let key := roomKey room in
  (fun w =>
     if JsMap.has key (gameRooms w) then (tt, w)
     else (g <- newGameRoom key ;; register key g) w) ;;;
  onRoom key (fun g => addPlayer g socketId nm) ;;;
  emit socketId game_joined.

Definition on_game_leave (socketId room : string) : M unit :=
  onRoom (roomKey room) (fun g => removePlayer g socketId).

Definition on_game_input (socketId room : string) (input : Input) : M unit :=
  onRoom (roomKey room) (fun g => ret (receiveInput g socketId input)).

Definition on_disconnect (socketId : string) : M unit :=
  fun w =>
    foldM (fun (_ : unit) key =>
             onRoom key (fun g => if JsMap.has socketId (players g)
                                  then removePlayer g socketId else ret g))
          (JsMap.keys (gameRooms w)) tt w.

Definition on_player_ready (socketId room : string) (ready : bool) : M unit :=
  onRoom (roomKey room) (fun g => setPlayerReady g socketId ready).

Definition on_request_restart (socketId room : string) : M unit :=
  onRoom (roomKey room) (fun g => setPlayerReady g socketId true).

(** The two [setInterval] callbacks of the room registered under [key]. *)
Definition on_tick (key : string) : M unit :=
  onRoom key (fun g => if interval g then tick g else ret g).

Definition on_timer (key : string) : M unit :=
  onRoom key (fun g => if timerInterval g then updateTimer g else ret g).

(** What can happen to the server, and runs of the server. *)
Inductive Action :=
| GameJoin (socketId room : string) (nm : option string)
| GameLeave (socketId room : string)
| GameInput (socketId room : string) (input : Input)
| PlayerReady (socketId room : string) (ready : bool)
| RequestRestart (socketId room : string)
| Disconnect (socketId : string)
| TickFires (key : string)
| TimerFires (key : string).

Definition step (a : Action) : M unit :=
  match a with
  | GameJoin s r n => on_game_join s r n
  | GameLeave s r => on_game_leave s r
  | GameInput s r i => on_game_input s r i
  | PlayerReady s r b => on_player_ready s r b
  | RequestRestart s r => on_request_restart s r
  | Disconnect s => on_disconnect s
  | TickFires k => on_tick k
  | TimerFires k => on_timer k
  end.

Definition run (script : list Action) (w : World) : World :=
  snd (foldM (fun (_ : unit) a => step a) script tt w).
End Engine.

Definition boot : World := {| gameRooms := []; rnd := 0; clk := 0; out := [] |}.

(** ** A concrete host for closed runs

    [lab] fixes every oracle so that runs of the server evaluate. Its
    numeric functions return what ECMAScript prescribes wherever the standard
    pins the result down: [Math.cos] and [Math.sin] are NaN at NaN and at the
    infinities, [Math.cos(0)] is 1 and [Math.sin(0)] is 0, [Math.hypot] is
    [+Infinity] as soon as one argument is infinite, and squaring is one
    multiplication. Elsewhere they are short polynomial stand-ins, and
    [toFixed2] does not round. *)

Module Lab.
Local Open Scope float_scope.

Definition cos (v : float) : float :=
  if is_finite v then
    let s := v * v in 1 - s / 2 + s * s / 24 - s * s * s / 720
  else nan.

Definition sin (v : float) : float :=
  if is_finite v then
    let s := v * v in v - v * s / 6 + v * s * s / 120 - v * s * s * s / 5040
  else nan.

Definition hypot (u v : float) : float :=
  if is_infinity u || is_infinity v then infinity else sqrt (u * u + v * v).

Definition pow (u v : float) : float := if v =? 2 then u * u else nan.

(** Base-36 digits of a fraction, most significant first. *)
Definition digit (v : float) : nat :=
  List.length
    (filter (fun d => of_uint63 (Uint63.of_Z (Z.of_nat d)) <=? v) (List.seq 1 35)).

Definition glyph (d : nat) : ascii :=
  if (d <? 10)%nat then ascii_of_nat (48 + d) else ascii_of_nat (87 + d).

Fixpoint digits (n : nat) (v : float) : string :=
  match n with
  | O => EmptyString
  | S n' =>
      if v =? 0 then EmptyString
      else
        let u := v * 36 in
        let d := digit u in
        String (glyph d) (digits n' (u - of_uint63 (Uint63.of_Z (Z.of_nat d))))
  end.

Definition toString36 (v : float) : string :=
  if v =? 0 then "0"%string else ("0." ++ digits 11 v)%string.

Definition is_space (c : ascii) : bool :=
  let n := nat_of_ascii c in
  (n =? 32)%nat || ((9 <=? n)%nat && (n <=? 13)%nat).

Fixpoint ltrim (s : string) : string :=
  match s with
  | EmptyString => EmptyString
  | String c s' => if is_space c then ltrim s' else s
  end.

Fixpoint reverse (s acc : string) : string :=
  match s with
  | EmptyString => acc
  | String c s' => reverse s' (String c acc)
  end.

Definition trim (s : string) : string :=
  reverse (ltrim (reverse (ltrim s) EmptyString)) EmptyString.

Definition lower (c : ascii) : ascii :=
  let n := nat_of_ascii c in
  if (65 <=? n)%nat && (n <=? 90)%nat then ascii_of_nat (n + 32) else c.

Fixpoint toLowerCase (s : string) : string :=
  match s with
  | EmptyString => EmptyString
  | String c s' => String (lower c) (toLowerCase s')
  end.

(** The random tape: multiples of [1/1024] below 1, scattered by a
    quadratic congruence. *)
Definition random (k : nat) : float :=
  let z := Z.of_nat k in
  of_uint63 (Uint63.of_Z ((31 * z * z + 7 * z + 3) mod 1009)) / 1024.

Definition clock (k : nat) : Z := (1762000000000 + Z.of_nat k)%Z.
End Lab.

Definition lab : Host :=
  {| Math_random := Lab.random; Date_now := Lab.clock;
     Math_cos := Lab.cos; Math_sin := Lab.sin; Math_hypot := Lab.hypot;
     Math_pow := Lab.pow; toFixed2 := fun v => v;
     toString36 := Lab.toString36; trim := Lab.trim;
     toLowerCase := Lab.toLowerCase |}.

(** A host whose [Math.random] always returns one half. *)
Definition jammed : Host :=
  {| Math_random := fun _ => 0.5%float; Date_now := Lab.clock;
     Math_cos := Lab.cos; Math_sin := Lab.sin; Math_hypot := Lab.hypot;
     Math_pow := Lab.pow; toFixed2 := fun v => v;
     toString36 := Lab.toString36; trim := Lab.trim;
     toLowerCase := Lab.toLowerCase |}.

(** ** Vocabulary of the properties *)

Definition in_range (bound v : float) : bool :=
  ((0 <=? v) && (v <=? bound))%float.

(** [Math.random] returns numbers of [[0, 1)]. *)
Definition random_unit (h : Host) : Prop :=
  forall k, ((0 <=? Math_random h k) && (Math_random h k <? 1))%float = true.

(** A coordinate is a number of [[0, bound]], or it is NaN. *)
Definition coord_ok (bound v : float) : Prop :=
  is_nan v = true \/ in_range bound v = true.

Definition player_ok (p : Player) : Prop :=
  (0 <= p_hp p <= 100)%Z /\
  coord_ok MAP_WIDTH (p_x p) /\ coord_ok MAP_HEIGHT (p_y p).

(** Every stored bullet sits under its own identity, and no identity occurs
    twice. *)
Definition store_ok (bs : JsMap.t Bullet) : Prop :=
  NoDup (JsMap.keys bs) /\ Forall (fun e => b_id (snd e) = fst e) bs.

(** Walls that pairwise do not overlap. *)
Definition disjoint_walls (ws : list Wall) : Prop :=
  forall i j a b,
    i <> j -> nth_error ws i = Some a -> nth_error ws j = Some b ->
    isOverlapping a b = false.

(** The largest kill count of a list of players. *)
Definition top_kills (ps : list Player) (m : Z) : Prop :=
  In m (List.map p_kills ps) /\ Forall (fun p => (p_kills p <= m)%Z) ps.

Definition draw (k : Z) : Rank :=
  {| r_id := None; r_name := "Draw"; r_kills := k |}.

(** A room whose players carry the given kill counts, in this order. *)
Definition contestant (i : nat) (k : Z) : string * Player :=
  let id := String (ascii_of_nat (97 + i)) EmptyString in
  (id, {| p_id := id; p_name := id; p_x := 0; p_y := 0; p_a := 0; p_vx := 0;
          p_vy := 0; p_hp := 100; p_kills := k; p_inputs := [];
          p_lastInputSeq := 0; p_ready := false |}).

Fixpoint contestants (i : nat) (ks : list Z) : JsMap.t Player :=
  match ks with
  | [] => []
  | k :: ks' => contestant i k :: contestants (S i) ks'
  end.

Definition openArena : Arena :=
  {| walls := []; pillars := []; width := MAP_WIDTH; height := MAP_HEIGHT |}.

Definition arenaRoom (ps : JsMap.t Player) (running : bool) : GameRoom :=
  {| name := "arena"; players := ps; bullets := []; seq := 0; map := openArena;
     matchDuration := 65; timeLeft := 65; matchRunning := running;
     timerInterval := running; interval := true |}.

(** The [match-ended] payloads among the packets. *)
Fixpoint verdicts (l : list Packet) : list (list Rank * option Rank) :=
  match l with
  | [] => []
  | {| event := match_ended rk wn |} :: l' => (rk, wn) :: verdicts l'
  | _ :: l' => verdicts l'
  end.

(** Each wall is clear of the walls after it. *)
Fixpoint apart (ws : list Wall) : Prop :=
  match ws with
  | [] => True
  | a :: rest => Forall (fun b => isOverlapping a b = false) rest /\ apart rest
  end.

(** Rankings run from the most kills to the fewest. *)
Definition outranks (a b : Rank) : Prop := (r_kills b <= r_kills a)%Z.

(** A computation that only draws random numbers. *)
Definition draws_only {A} (c : M A) : Prop :=
  forall w, gameRooms (snd (c w)) = gameRooms w /\
            clk (snd (c w)) = clk w /\ out (snd (c w)) = out w /\
            (rnd w <= rnd (snd (c w)))%nat.

(** * Properties *)

(** ** The store *)

Section MapFacts.
Variable V : Type.
Implicit Types (m : JsMap.t V) (k : string) (v : V).

Lemma get_set_same k v m : JsMap.get k (JsMap.set k v m) = Some v.
Proof.
  induction m as [|[k' v'] m IH]; simpl.
  - now rewrite String.eqb_refl.
  - destruct (String.eqb k k') eqn:E; simpl; rewrite ?String.eqb_refl, ?E; auto.
Qed.

Lemma get_set_other k k' v m :
  k' <> k -> JsMap.get k' (JsMap.set k v m) = JsMap.get k' m.
Proof.
  intros N. induction m as [|[k0 v0] m IH]; simpl.
  - destruct (String.eqb_spec k' k); congruence.
  - destruct (String.eqb_spec k k0); simpl.
    + subst. destruct (String.eqb_spec k' k0); congruence.
    + now rewrite IH.
Qed.

Lemma set_get_id k v m : JsMap.get k m = Some v -> JsMap.set k v m = m.
Proof.
  induction m as [|[k0 v0] m IH]; simpl; [discriminate|].
  destruct (String.eqb_spec k k0); intros E.
  - congruence.
  - now rewrite IH.
Qed.

Lemma get_adjust_same f k m :
  JsMap.get k (JsMap.adjust f k m) = option_map f (JsMap.get k m).
Proof.
  induction m as [|[k0 v0] m IH]; simpl; auto.
  destruct (String.eqb k k0) eqn:E; simpl; rewrite E; auto.
Qed.

Lemma get_adjust_other f k k' m :
  k' <> k -> JsMap.get k' (JsMap.adjust f k m) = JsMap.get k' m.
Proof.
  intros N. induction m as [|[k0 v0] m IH]; simpl; auto.
  destruct (String.eqb_spec k k0); simpl.
  - subst. destruct (String.eqb_spec k' k0); congruence.
  - now rewrite IH.
Qed.

Lemma keys_adjust f k m : JsMap.keys (JsMap.adjust f k m) = JsMap.keys m.
Proof.
  induction m as [|[k0 v0] m IH]; simpl; auto.
  destruct (String.eqb k k0); simpl; congruence.
Qed.

Lemma get_none_keys k m : JsMap.get k m = None <-> ~ In k (JsMap.keys m).
Proof.
  induction m as [|[k0 v0] m IH]; simpl.
  - tauto.
  - destruct (String.eqb_spec k k0).
    + subst. split; [discriminate | tauto].
    + rewrite IH. split; intros H; [intros [E|I]; [congruence|tauto] | tauto].
Qed.

Lemma in_keys_set k k' v m :
  In k' (JsMap.keys (JsMap.set k v m)) <-> k' = k \/ In k' (JsMap.keys m).
Proof.
  induction m as [|[k0 v0] m IH]; simpl.
  - intuition.
  - destruct (String.eqb_spec k k0); simpl.
    + subst. intuition.
    + rewrite IH. intuition.
Qed.

Lemma in_keys_delete k k' m :
  In k' (JsMap.keys (JsMap.delete k m)) -> In k' (JsMap.keys m).
Proof.
  induction m as [|[k0 v0] m IH]; simpl; auto.
  destruct (String.eqb k k0); simpl; intuition.
Qed.

Lemma nodup_keys_set k v m :
  NoDup (JsMap.keys m) -> NoDup (JsMap.keys (JsMap.set k v m)).
Proof.
  induction m as [|[k0 v0] m IH]; simpl; intros N.
  - constructor; [simpl; tauto | constructor].
  - inversion N as [|? ? N1 N2]; subst.
    destruct (String.eqb_spec k k0); simpl.
    + subst. now constructor.
    + constructor; auto. rewrite in_keys_set. intros [E|I]; [congruence|tauto].
Qed.

Lemma nodup_keys_delete k m :
  NoDup (JsMap.keys m) -> NoDup (JsMap.keys (JsMap.delete k m)).
Proof.
  induction m as [|[k0 v0] m IH]; simpl; intros N; auto.
  inversion N as [|? ? N1 N2]; subst.
  destruct (String.eqb k k0); simpl; auto.
  constructor; auto. intros I. apply N1. eapply in_keys_delete; eauto.
Qed.

Lemma in_set k v m e :
  In e (JsMap.set k v m) -> e = (k, v) \/ In e m.
Proof.
  induction m as [|[k0 v0] m IH]; simpl.
  - intuition.
  - destruct (String.eqb k k0); simpl; intuition.
Qed.

Lemma in_delete k m e : In e (JsMap.delete k m) -> In e m.
Proof.
  induction m as [|[k0 v0] m IH]; simpl; auto.
  destruct (String.eqb k k0); simpl; intuition.
Qed.

Lemma in_adjust f k m e :
  In e (JsMap.adjust f k m) ->
  In e m \/ exists v, In (k, v) m /\ e = (k, f v).
Proof.
  induction m as [|[k0 v0] m IH]; simpl; auto.
  destruct (String.eqb_spec k k0); simpl.
  - subst. intros [E|I]; [right; exists v0; auto | auto].
  - intros [E|I]; auto. destruct (IH I) as [J|[v [J1 J2]]]; auto.
    right; exists v; auto.
Qed.
End MapFacts.

(** ** The monad *)

Lemma bind_run A B (c : M A) (k : A -> M B) w :
  bind c k w = k (fst (c w)) (snd (c w)).
Proof. unfold bind. now destruct (c w). Qed.

(** ** Sampling leaves the rest of the world alone *)

Section Sampling.
Variable h : Host.

Lemma draws_ret A (a : A) : draws_only (ret a).
Proof. intros w; simpl; auto. Qed.

Lemma draws_random : draws_only (random h).
Proof. intros w; simpl; auto. Qed.

Lemma draws_bind A B (c : M A) (k : A -> M B) :
  draws_only c -> (forall a, draws_only (k a)) -> draws_only (bind c k).
Proof.
  intros Hc Hk w. rewrite bind_run.
  destruct (Hc w) as (a1 & a2 & a3 & a4).
  destruct (Hk (fst (c w)) (snd (c w))) as (b1 & b2 & b3 & b4).
  repeat split; try congruence. lia.
Qed.

Lemma draws_spawnLoop m n : draws_only (spawnLoop h m n).
Proof.
  induction n as [|n IH]; simpl.
  - repeat (apply draws_bind; [apply draws_random|intros ?]). apply draws_ret.
  - repeat (apply draws_bind; [apply draws_random|intros ?]).
    destruct (collidesWithObstacles _ _ _ _ _); [apply IH | apply draws_ret].
Qed.

Lemma draws_getSafeSpawn m : draws_only (getSafeSpawn h m).
Proof. apply draws_spawnLoop. Qed.
End Sampling.

(** ** Starting and ending a match twice *)

(** C4. [startMatch] on a room whose match is running returns the room and
    the world as they are: no player, timer or bullet is reset and nothing is
    emitted. [endMatch] on a room whose match is not running does the
    same. *)
Theorem startMatch_endMatch_idle :
  forall (h : Host) (g : GameRoom) (w : World),
    (matchRunning g = true -> startMatch h g w = (g, w)) /\
    (matchRunning g = false -> endMatch h g w = (g, w)).
Proof.
  intros h g w; split; intros R.
  - unfold startMatch. now rewrite R.
  - unfold endMatch. now rewrite R.
Qed.

Lemma startMatch_endMatch_idle_witness :
  (matchRunning (arenaRoom (contestants 0 [3; 1]%Z) true) = true /\
   startMatch lab (arenaRoom (contestants 0 [3; 1]%Z) true) boot
   = (arenaRoom (contestants 0 [3; 1]%Z) true, boot)) /\
  (matchRunning (arenaRoom (contestants 0 [3; 1]%Z) false) = false /\
   endMatch lab (arenaRoom (contestants 0 [3; 1]%Z) false) boot
   = (arenaRoom (contestants 0 [3; 1]%Z) false, boot)).
Proof.
  split; (split; [reflexivity|]).
  - apply (startMatch_endMatch_idle lab (arenaRoom (contestants 0 [3; 1]%Z) true) boot).
    reflexivity.
  - apply (startMatch_endMatch_idle lab (arenaRoom (contestants 0 [3; 1]%Z) false) boot).
    reflexivity.
Defined.

(** ** Joining a room *)

(** C10. [addPlayer] writes the entry of the joining id and nothing else of
    the room: the other players, the bullets, the running flag, the
    remaining time, the tick number, the arena and the timers are those of
    before, and so is the registry. The entry written has full health, no
    velocity, an empty input queue, [ready = false], and the kills of the
    entry it replaces (0 if there was none). *)
Theorem addPlayer_frame :
  forall (h : Host) (g : GameRoom) (socketId : string) (nm : option string)
         (w : World),
    let g' := fst (addPlayer h g socketId nm w) in
    let w' := snd (addPlayer h g socketId nm w) in
    (exists p,
        players g' = JsMap.set socketId p (players g) /\
        JsMap.get socketId (players g') = Some p /\
        p_id p = socketId /\ p_hp p = 100%Z /\
        p_vx p = 0%float /\ p_vy p = 0%float /\
        p_kills p = match JsMap.get socketId (players g) with
                    | Some q => p_kills q
                    | None => 0%Z
                    end /\
        p_inputs p = [] /\ p_ready p = false) /\
    (forall k, k <> socketId ->
               JsMap.get k (players g') = JsMap.get k (players g)) /\
    bullets g' = bullets g /\ matchRunning g' = matchRunning g /\
    timeLeft g' = timeLeft g /\ seq g' = seq g /\ map g' = map g /\
    matchDuration g' = matchDuration g /\ timerInterval g' = timerInterval g /\
    interval g' = interval g /\ name g' = name g /\
    gameRooms w' = gameRooms w.
Proof.
  intros h g sid nm w. unfold addPlayer.
  rewrite bind_run.
  pose proof (draws_getSafeSpawn h (map g) w) as (R1 & _).
  destruct (getSafeSpawn h (map g) w) as [[x y] w1]; simpl in *.
  split.
  - eexists; split; [reflexivity|]. rewrite get_set_same.
    repeat split; reflexivity.
  - split; [intros k N; now apply get_set_other|].
    repeat split; auto.
Qed.

(** ** Inputs *)

Lemma world_eta (w : World) :
  {| gameRooms := gameRooms w; rnd := rnd w; clk := clk w; out := out w |} = w.
Proof. now destruct w. Qed.

Lemma receiveInput_dropped g socketId input :
  JsMap.get socketId (players g) = None \/ matchRunning g = false ->
  receiveInput g socketId input = g.
Proof.
  unfold receiveInput. intros [E|E].
  - now rewrite E.
  - rewrite E. now destruct (JsMap.get socketId (players g)).
Qed.

(** C7. [receiveInput] appends the input to the queue of the player when the
    player is in the room and the match is running, and to that queue only;
    when the player is unknown or the match is stopped the room is returned
    as it is. The [game-input] handler does nothing for an unknown room, and
    passes the input to [receiveInput] otherwise; when the input is dropped
    the world is unchanged and nothing is emitted. *)
Theorem receiveInput_gate :
  forall (h : Host) (g : GameRoom) (socketId : string) (input : Input),
    (forall p, JsMap.get socketId (players g) = Some p ->
               matchRunning g = true ->
       let g' := receiveInput g socketId input in
       JsMap.get socketId (players g')
       = Some (with_inputs (p_inputs p ++ [input]) p) /\
       (forall k, k <> socketId ->
                  JsMap.get k (players g') = JsMap.get k (players g)) /\
       g' = with_players (players g') g) /\
    (JsMap.get socketId (players g) = None \/ matchRunning g = false ->
       receiveInput g socketId input = g) /\
    (forall (w : World) (room : string),
       match JsMap.get (roomKey h room) (gameRooms w) with
       | None => on_game_input h socketId room input w = (tt, w)
       | Some g0 =>
           on_game_input h socketId room input w
           = (tt, {| gameRooms := JsMap.set (roomKey h room)
                                            (receiveInput g0 socketId input)
                                            (gameRooms w);
                     rnd := rnd w; clk := clk w; out := out w |}) /\
           (JsMap.get socketId (players g0) = None \/ matchRunning g0 = false ->
            on_game_input h socketId room input w = (tt, w))
       end).
Proof.
  intros h g sid input. split; [|split].
  - intros p E R; simpl. unfold receiveInput. rewrite E, R; simpl.
    rewrite get_adjust_same, E; simpl. split; [reflexivity|].
    split; [intros k N; now apply get_adjust_other | reflexivity].
  - apply receiveInput_dropped.
  - intros w room. unfold on_game_input, onRoom.
    destruct (JsMap.get (roomKey h room) (gameRooms w)) as [g0|] eqn:E; auto.
    unfold ret; simpl. unfold JsMap.has. rewrite E. unfold register.
    split; [reflexivity|].
    intros D. rewrite (receiveInput_dropped _ _ _ D).
    rewrite (set_get_id _ _ E). now rewrite world_eta.
Qed.

Lemma receiveInput_gate_witness :
  let g := arenaRoom (contestants 0 [0; 0]%Z) true in
  let i := {| i_turn := 1; i_thrust := 1; i_fire := true; i_seq := 7 |} in
  option_map p_inputs (JsMap.get "b" (players (receiveInput g "b" i))) = Some [i] /\
  receiveInput (arenaRoom (contestants 0 [0; 0]%Z) false) "b" i
  = arenaRoom (contestants 0 [0; 0]%Z) false.
Proof.
  intros g i. split.
  - destruct (receiveInput_gate lab g "b" i) as (A & _).
    destruct (A (snd (contestant 1 0%Z)) eq_refl eq_refl) as (A1 & _).
    unfold g in *. rewrite A1. reflexivity.
  - destruct (receiveInput_gate lab (arenaRoom (contestants 0 [0; 0]%Z) false) "b" i)
      as (_ & B & _).
    apply B. right. reflexivity.
Defined.

(** ** Ready-gating *)

Lemma startMatch_runs h g w :
  matchRunning g = false -> matchRunning (fst (startMatch h g w)) = true.
Proof.
  intros R. unfold startMatch. rewrite R.
  rewrite bind_run. cbv beta zeta.
  rewrite bind_run. rewrite bind_run. unfold ret; simpl.
  unfold stopTimer; simpl. now destruct (timerInterval g).
Qed.

Lemma allReady_iff (g : GameRoom) :
  allReady g = true <-> (forall e, In e (players g) -> p_ready (snd e) = true).
Proof.
  unfold allReady, JsMap.values. rewrite forallb_forall. split.
  - intros H e I. apply H. now apply in_map.
  - intros H p I. apply in_map_iff in I as (e & <- & I). now apply H.
Qed.

(** C2. In a room whose match is not running, after the ready flag of one of
    its players is set, and after one of its players is removed and others
    remain, the match is running if and only if every player then in the
    room is ready. So removing a player who is not ready, when all the
    others are, starts the match. *)
Theorem ready_gating :
  forall (h : Host) (g : GameRoom) (socketId : string) (w : World),
    matchRunning g = false ->
    JsMap.has socketId (players g) = true ->
    (forall ready,
        matchRunning (fst (setPlayerReady h g socketId ready w)) = true <->
        (forall e, In e (JsMap.adjust (with_ready ready) socketId (players g)) ->
                   p_ready (snd e) = true)) /\
    (JsMap.delete socketId (players g) <> [] ->
        (matchRunning (fst (removePlayer h g socketId w)) = true <->
         (forall e, In e (JsMap.delete socketId (players g)) ->
                    p_ready (snd e) = true))) /\
    (forall p, JsMap.get socketId (players g) = Some p -> p_ready p = false ->
        JsMap.delete socketId (players g) <> [] ->
        (forall e, In e (JsMap.delete socketId (players g)) ->
                   p_ready (snd e) = true) ->
        matchRunning (fst (removePlayer h g socketId w)) = true).
Proof.
  intros h g sid w R X.
  assert (Hready : forall ready,
    matchRunning (fst (setPlayerReady h g sid ready w)) = true <->
    (forall e, In e (JsMap.adjust (with_ready ready) sid (players g)) ->
               p_ready (snd e) = true)).
  { intros ready. unfold setPlayerReady. unfold JsMap.has in X.
    destruct (JsMap.get sid (players g)) as [p|] eqn:E; [|discriminate].
    rewrite bind_run. rewrite bind_run. cbv zeta.
    set (g1 := with_players (JsMap.adjust (with_ready ready) sid (players g)) g).
    assert (S1 : (0 <? JsMap.size (players g1))%nat = true).
    { apply Nat.ltb_lt. unfold g1, JsMap.size; simpl.
      destruct (players g) as [|[k0 v0] m]; [discriminate|].
      simpl. destruct (String.eqb sid k0); simpl; lia. }
    rewrite S1.
    transitivity (allReady g1 = true); [|exact (allReady_iff g1)].
    destruct (allReady g1) eqn:A.
    - split; auto. intros _. apply startMatch_runs. exact R.
    - unfold ret; simpl. rewrite R. split; discriminate. }
  assert (Hleave : JsMap.delete sid (players g) <> [] ->
    (matchRunning (fst (removePlayer h g sid w)) = true <->
     (forall e, In e (JsMap.delete sid (players g)) -> p_ready (snd e) = true))).
  { intros NE. unfold removePlayer. rewrite X.
    rewrite bind_run. rewrite bind_run.
    set (g1 := with_players (JsMap.delete sid (players g)) g).
    assert (S1 : (JsMap.size (players g1) =? 0)%nat = false).
    { apply Nat.eqb_neq. unfold g1, JsMap.size; simpl.
      destruct (JsMap.delete sid (players g)); [congruence|simpl; lia]. }
    rewrite S1.
    transitivity (allReady g1 = true); [|exact (allReady_iff g1)].
    assert (R1 : matchRunning g1 = false) by exact R.
    rewrite R1. simpl negb. rewrite andb_true_r.
    destruct (allReady g1) eqn:A.
    - split; auto. intros _. apply startMatch_runs. exact R1.
    - unfold ret; simpl. rewrite R. split; discriminate. }
  split; [exact Hready|]. split; [exact Hleave|].
  intros p _ _ NE All. apply Hleave; assumption.
Qed.

Lemma ready_gating_witness :
  let idle := JsMap.adjust (with_ready true) "b"
                           (contestants 0 [0; 0]%Z) in
  matchRunning (fst (removePlayer lab (arenaRoom idle false) "a" boot)) = true /\
  matchRunning (fst (setPlayerReady lab (arenaRoom idle false) "a" true boot)) = true /\
  matchRunning (fst (setPlayerReady lab (arenaRoom idle false) "a" false boot)) = false.
Proof.
  intros idle.
  destruct (ready_gating lab (arenaRoom idle false) "a" boot eq_refl eq_refl)
    as (A & B & C).
  split; [|split].
  - apply (C (snd (contestant 0 0%Z)) eq_refl eq_refl).
    + discriminate.
    + intros e [<-|[]]. reflexivity.
  - apply (A true). intros e [<-|[<-|[]]]; reflexivity.
  - destruct (matchRunning (fst (setPlayerReady lab (arenaRoom idle false) "a" false boot)))
      eqn:E; [|reflexivity].
    apply (A false) with (e := contestant 0 0%Z) in E; [discriminate|].
    left; reflexivity.
Defined.

(** ** Rankings and the winner *)

Lemma insertRank_perm r l : Permutation (r :: l) (insertRank r l).
Proof.
  induction l as [|r' l IH]; simpl; auto.
  destruct (r_kills r' - r_kills r <=? 0)%Z; auto.
  rewrite perm_swap. now constructor.
Qed.

Lemma sortRanks_perm l : Permutation l (sortRanks l).
Proof.
  induction l as [|r l IH]; simpl; auto.
  rewrite <- insertRank_perm. now constructor.
Qed.

Lemma insertRank_sorted r l :
  StronglySorted outranks l -> StronglySorted outranks (insertRank r l).
Proof.
  induction l as [|r' l IH]; simpl; intros S.
  - constructor; constructor.
  - inversion S as [|? ? S1 S2]; subst.
    destruct (Z.leb_spec (r_kills r' - r_kills r) 0).
    + constructor; auto. constructor.
      * unfold outranks; lia.
      * eapply Forall_impl; [|exact S2]. unfold outranks; intros; lia.
    + constructor; auto.
      eapply Permutation_Forall; [apply insertRank_perm|].
      constructor; auto. unfold outranks; lia.
Qed.

Lemma sortRanks_sorted l : StronglySorted outranks (sortRanks l).
Proof.
  induction l as [|r l IH]; simpl.
  - constructor.
  - now apply insertRank_sorted.
Qed.

Lemma filter_length_perm A (f : A -> bool) l l' :
  Permutation l l' -> List.length (filter f l) = List.length (filter f l').
Proof.
  induction 1; simpl; auto.
  - destruct (f x); simpl; congruence.
  - destruct (f x), (f y); reflexivity.
  - congruence.
Qed.

Lemma filter_length_map A B (g : A -> B) (f : B -> bool) l :
  List.length (filter f (List.map g l)) = List.length (filter (fun a => f (g a)) l).
Proof.
  induction l as [|a l IH]; simpl; auto.
  destruct (f (g a)); simpl; congruence.
Qed.

Lemma verdicts_app l l' : verdicts (l ++ l') = verdicts l ++ verdicts l'.
Proof.
  induction l as [|[t e] l IH]; simpl; auto.
  destruct e; simpl; congruence.
Qed.

(** The winner computed from rankings that are a sorted rearrangement of the
    players' records. *)
Lemma winnerOf_spec (ps : list Player) (rankings : list Rank) :
  Permutation (List.map rank ps) rankings ->
  StronglySorted outranks rankings ->
  (ps = [] -> winnerOf rankings = None) /\
  (Forall (fun p => p_kills p = 0%Z) ps -> winnerOf rankings = None) /\
  (forall m, top_kills ps m -> ~ Forall (fun p => p_kills p = 0%Z) ps ->
     let sharing := List.length (filter (fun p => (p_kills p =? m)%Z) ps) in
     ((2 <= sharing)%nat -> winnerOf rankings = Some (draw m)) /\
     (sharing = 1%nat ->
      exists p, In p ps /\ p_kills p = m /\ winnerOf rankings = Some (rank p))).
Proof.
  intros P S. split; [|split].
  - intros ->. apply Permutation_nil in P. now subst.
  - intros Z0. unfold winnerOf. destruct rankings as [|top rk]; auto.
    assert (A : forallb (fun r => (r_kills r =? 0)%Z) (top :: rk) = true).
    { apply forallb_forall. intros r I.
      apply (Permutation_in _ (Permutation_sym P)) in I.
      apply in_map_iff in I as (p & <- & I). simpl.
      rewrite Forall_forall in Z0. apply Z.eqb_eq. now apply Z0. }
    now rewrite A.
  - intros m (Tin & Tmax) NZ sharing.
    assert (Cnt : List.length (filter (fun r => (r_kills r =? m)%Z) rankings) = sharing).
    { rewrite <- (filter_length_perm _ P). apply filter_length_map. }
    destruct rankings as [|top rk].
    { apply Permutation_sym, Permutation_nil in P.
      destruct ps; [destruct Tin | discriminate]. }
    assert (Top : r_kills top = m).
    { inversion S as [|? ? S1 S2]; subst.
      apply in_map_iff in Tin as (p & E & I).
      assert (I' : In (rank p) (top :: rk))
        by (apply (Permutation_in _ P); now apply in_map).
      assert (L : (m <= r_kills top)%Z).
      { destruct I' as [E'|I']; [rewrite E'; simpl; lia|].
        rewrite Forall_forall in S2. specialize (S2 _ I').
        unfold outranks in S2. simpl in S2. lia. }
      assert (I2 : In top (List.map rank ps))
        by (apply (Permutation_in _ (Permutation_sym P)); now left).
      apply in_map_iff in I2 as (q & <- & I2). simpl in *.
      rewrite Forall_forall in Tmax. specialize (Tmax _ I2). lia. }
    assert (A : forallb (fun r => (r_kills r =? 0)%Z) (top :: rk) = false).
    { destruct (forallb _ (top :: rk)) eqn:A; auto.
      exfalso. apply NZ. apply Forall_forall. intros p I.
      rewrite forallb_forall in A.
      apply Z.eqb_eq. apply (A (rank p)).
      apply (Permutation_in _ P). now apply in_map. }
    unfold winnerOf. rewrite A. rewrite Top. rewrite Cnt.
    split.
    + intros G. assert (B : (1 <? sharing)%nat = true) by (apply Nat.ltb_lt; lia).
      now rewrite B.
    + intros G. rewrite G. simpl.
      assert (I2 : In top (List.map rank ps))
        by (apply (Permutation_in _ (Permutation_sym P)); now left).
      apply in_map_iff in I2 as (q & <- & I2).
      exists q. auto.
Qed.

(** C1. Ending a running match emits rankings that are the players' records
    sorted by kills, highest first, and a winner that is absent when there
    is no player or when every player has zero kills, the record
    [{id: null, name: "Draw", kills}] with the highest kill count when two
    or more players share it, and the record of the one player who holds it
    otherwise. With kills 5, 5, 3 the winner is a draw at 5; with 0, 0, 0
    there is none; with 7, 2, 2 it is the player with 7. *)
Theorem endMatch_verdict :
  (forall (h : Host) (g : GameRoom) (w : World),
      matchRunning g = true ->
      let ps := JsMap.values (players g) in
      exists rankings winner,
        verdicts (out (snd (endMatch h g w)))
        = verdicts (out w) ++ [(rankings, winner)] /\
        Permutation (List.map rank ps) rankings /\
        StronglySorted outranks rankings /\
        (ps = [] -> winner = None) /\
        (Forall (fun p => p_kills p = 0%Z) ps -> winner = None) /\
        (forall m, top_kills ps m -> ~ Forall (fun p => p_kills p = 0%Z) ps ->
           let sharing := List.length (filter (fun p => (p_kills p =? m)%Z) ps) in
           ((2 <= sharing)%nat -> winner = Some (draw m)) /\
           (sharing = 1%nat ->
            exists p, In p ps /\ p_kills p = m /\ winner = Some (rank p)))) /\
  (forall h : Host,
      List.map snd (verdicts (out (snd
        (endMatch h (arenaRoom (contestants 0 [5; 5; 3]%Z) true) boot))))
      = [Some (draw 5)] /\
      List.map snd (verdicts (out (snd
        (endMatch h (arenaRoom (contestants 0 [0; 0; 0]%Z) true) boot))))
      = [None] /\
      List.map snd (verdicts (out (snd
        (endMatch h (arenaRoom (contestants 0 [7; 2; 2]%Z) true) boot))))
      = [Some (rank (snd (contestant 0 7%Z)))]).
Proof.
  split.
  - intros h g w R ps.
    exists (sortRanks (List.map rank ps)), (winnerOf (sortRanks (List.map rank ps))).
    split.
    + unfold endMatch. rewrite R. change (negb true) with false.
      cbv beta iota zeta.
      rewrite bind_run. rewrite bind_run. unfold ret. simpl.
      rewrite !verdicts_app. simpl. rewrite app_nil_r.
      unfold stopTimer; simpl. destruct (timerInterval g); reflexivity.
    + split; [apply sortRanks_perm|]. split; [apply sortRanks_sorted|].
      apply winnerOf_spec; [apply sortRanks_perm | apply sortRanks_sorted].
  - intros h. repeat split; reflexivity.
Qed.

Lemma endMatch_verdict_witness :
  exists rankings winner,
    verdicts (out (snd (endMatch lab (arenaRoom (contestants 0 [1; 4; 4]%Z) true) boot)))
    = [(rankings, winner)] /\
    List.map r_kills rankings = [4; 4; 1]%Z /\ winner = Some (draw 4).
Proof.
  destruct endMatch_verdict as (A & _).
  destruct (A lab (arenaRoom (contestants 0 [1; 4; 4]%Z) true) boot eq_refl)
    as (rankings & winner & E & _ & _ & _ & _ & T).
  exists rankings, winner. split; [exact E|].
  injection E as <- <-. split; reflexivity.
Defined.

(** ** Map generation *)

Lemma isOverlapping_sym a b : isOverlapping a b = isOverlapping b a.
Proof.
  unfold isOverlapping, Num.gtb.
  destruct (w_x a <? w_x b + w_w b)%float, (w_x b <? w_x a + w_w a)%float,
           (w_y a <? w_y b + w_h b)%float, (w_y b <? w_y a + w_h a)%float;
    reflexivity.
Qed.

Lemma apart_snoc ws n :
  apart ws -> Forall (fun a => isOverlapping a n = false) ws -> apart (ws ++ [n]).
Proof.
  induction ws as [|a ws IH]; simpl.
  - intros _ _. split; [constructor | exact I].
  - intros [F A] H. inversion H as [|? ? H1 H2]; subst. split.
    + apply Forall_app. split; [exact F | constructor; [exact H1 | constructor]].
    + now apply IH.
Qed.

Lemma apart_disjoint ws : apart ws -> disjoint_walls ws.
Proof.
  induction ws as [|c ws IH]; intros A i j a b N Ea Eb.
  - destruct i; discriminate.
  - destruct A as [F A]. rewrite Forall_forall in F.
    destruct i as [|i], j as [|j]; simpl in *.
    + congruence.
    + injection Ea as <-. apply F. eapply nth_error_In; eauto.
    + injection Eb as <-. rewrite isOverlapping_sym.
      apply F. eapply nth_error_In; eauto.
    + apply (IH A i j); auto.
Qed.

Section MapGeneration.
Variable h : Host.

Lemma candidate_draws w : rnd (snd (candidate h w)) = (rnd w + 5)%nat.
Proof. unfold candidate, bind, random, ret; simpl. lia. Qed.

Lemma wallLoop_inv budget :
  forall tries ws w,
    apart ws -> (List.length ws <= WALL_COUNT)%nat ->
    let r := wallLoop h budget tries ws w in
    apart (fst (fst r)) /\
    (List.length (fst (fst r)) <= WALL_COUNT)%nat /\
    (tries <= snd (fst r) <= tries + budget)%nat /\
    (List.length (fst (fst r)) = WALL_COUNT \/ snd (fst r) = (tries + budget)%nat) /\
    rnd (snd r) = (rnd w + 5 * (snd (fst r) - tries))%nat.
Proof.
  induction budget as [|budget IH]; intros tries ws w A L; simpl.
  - repeat split; auto; lia.
  - destruct (Nat.ltb_spec (List.length ws) WALL_COUNT) as [Lt|Ge].
    + rewrite bind_run.
      pose proof (candidate_draws w) as D.
      set (n := fst (candidate h w)) in *.
      set (w1 := snd (candidate h w)) in *.
      set (ws' := if existsb (fun wall => isOverlapping wall n) ws
                  then ws else ws ++ [n]).
      assert (A' : apart ws').
      { unfold ws'. destruct (existsb _ ws) eqn:X; auto.
        apply apart_snoc; auto. apply Forall_forall. intros a Ia.
        destruct (isOverlapping a n) eqn:O; auto.
        assert (existsb (fun wall => isOverlapping wall n) ws = true)
          by (apply existsb_exists; eauto).
        congruence. }
      assert (L' : (List.length ws' <= WALL_COUNT)%nat).
      { unfold ws'. destruct (existsb _ ws); auto.
        rewrite length_app; simpl; lia. }
      destruct (IH (S tries) ws' w1 A' L') as (I1 & I2 & I3 & I4 & I5).
      repeat split; auto; try lia.
    + simpl. repeat split; auto; try lia.
Qed.
End MapGeneration.

(** C5. The walls of a generated arena pairwise do not overlap, there are at
    most 8 of them, and they are found in at most 100 attempts: the search
    ends with 8 walls or with the 100th attempt, each attempt drawing five
    random numbers. When the attempts run out the arena has the walls
    accepted so far, which can be fewer than 8: one wall only when every
    draw is the same. *)
Theorem generateMap_walls :
  (forall (h : Host) (w : World),
      let ws := fst (fst (wallLoop h MAX_TRIES 0 [] w)) in
      let tries := snd (fst (wallLoop h MAX_TRIES 0 [] w)) in
      walls (fst (generateMap h w)) = ws /\
      disjoint_walls ws /\
      (List.length ws <= 8)%nat /\
      (tries <= 100)%nat /\
      (List.length ws = 8%nat \/ tries = 100%nat) /\
      rnd (snd (wallLoop h MAX_TRIES 0 [] w)) = (rnd w + 5 * tries)%nat) /\
  (snd (fst (wallLoop jammed MAX_TRIES 0 [] boot)) = 100%nat /\
   List.length (walls (fst (generateMap jammed boot))) = 1%nat).
Proof.
  split.
  - intros h w ws tries.
    destruct (wallLoop_inv h MAX_TRIES 0 [] w I (Nat.le_0_l _))
      as (I1 & I2 & I3 & I4 & I5).
    fold ws tries in I1, I2, I3, I4, I5.
    split.
    + unfold generateMap. rewrite bind_run.
      unfold ws. destruct (fst (wallLoop h MAX_TRIES 0 [] w)) as [ws0 t0].
      rewrite bind_run. reflexivity.
    + split; [now apply apart_disjoint|].
      unfold WALL_COUNT, MAX_TRIES in *.
      repeat split; auto; try lia.
  - split; vm_compute; reflexivity.
Qed.
